(** * cltkv1.nlp: the NLP orchestrator

    A shallow embedding of [src/cltkv1/nlp.py]: the default pipeline table
    [pipelines], the constructor [NLP.__init__], the selection method
    [NLP._get_pipeline] and the driver [NLP.analyze].

    Python objects live in stores indexed by addresses, so that object
    identity ([is]) is equality of addresses and in-place mutation is an
    update of a store cell.  Exceptions and the stores are threaded by a
    small state-and-error monad. *)

From stdpp Require Import gmap strings list fin_maps.

Set Default Proof Using "Type".

(** ** Exceptions *)

(** [UnknownLanguageError] and [UnimplementedLanguageError] are the two
    classes imported from [cltkv1.utils.exceptions]; [KeyError] is what a
    failed dict subscript raises; [AttributeError] is what reading a missing
    attribute raises; [OtherError] stands for whatever else a Process may
    raise (a [FileNotFoundError] for a missing model, say). *)
Inductive exn : Type :=
  | UnknownLanguageError (msg : string)
  | UnimplementedLanguageError (msg : string)
  | KeyError (key : string)
  | AttributeError (attr : string)
  | OtherError (class_name msg : string).

(** ** The state-and-error monad

    A computation gets a state and gives back either an exception or a
    value, together with the state reached: what was written before an
    exception was raised stays written. *)
Definition M (S A : Type) : Type := S → (exn + A) * S.

#[global] Instance M_ret {S} : MRet (M S) := λ A a s, (inr a, s).

#[global] Instance M_bind {S} : MBind (M S) := λ A B f c s,
  match c s with
  | (inl e, s') => (inl e, s')
  | (inr a, s') => f a s'
  end.

Definition raise {S A} (e : exn) : M S A := λ s, (inl e, s).

Definition gets {S A} (f : S → A) : M S A := λ s, (inr (f s), s).

Definition modify {S} (f : S → S) : M S unit := λ s, (inr tt, f s).

(** [try: c  except: h] *)
Definition try_except {S A} (c : M S A) (h : exn → M S A) : M S A := λ s,
  match c s with
  | (inl e, s') => h e s'
  | (inr a, s') => (inr a, s')
  end.

(** ** Addresses and stores *)

Definition loc := positive.

(** The address a new object gets: one no live object has. *)
Definition new_loc {A} (σ : gmap loc A) : loc := fresh (dom σ).

(** ** The data types of [cltkv1.utils.data_types] *)

(** Modelled from the spec: the [Language] descriptor of
    [cltkv1.utils.data_types] is not in [nlp.py]; the spec gives it an
    ISO-639-3 code and a display name. *)
Record Language : Type := {
  name : string;
  iso_639_3_code : string
}.

(** Modelled from the spec: the [Word] record of [cltkv1.utils.data_types]
    is not in [nlp.py]; the fields are those the spec lists, each unset
    ([None]) until a Process fills it. *)
Record Word : Type := {
  index_char_start : option nat;
  index_char_stop : option nat;
  index_token : option nat;
  index_sentence : option nat;
  string_ : option string;
  lemma : option string;
  upos : option string;
  xpos : option string;
  feats : option string;
  governor : option nat;
  dependency_relation : option string
}.

(** Modelled from the spec: the [Doc] dataclass of
    [cltkv1.utils.data_types] is not in [nlp.py]; the spec gives it the
    language code, the raw text, the sentences and the words, and every
    field left out of the constructor call is unset. *)
Record Doc : Type := {
  doc_language : option string;
  raw : option string;
  sentences : option (list (list Word));
  words : option (list Word)
}.

(** [Doc(language=code, raw=text)] *)
Definition Doc_new (code text : string) : Doc :=
  {| doc_language := Some code; raw := Some text;
     sentences := None; words := None |}.

(** The Doc objects alive. *)
Abbreviation docstore := (gmap loc Doc).

(** ** [cltkv1/nlp.py] *)

Module nlp.

Section Orchestrator.

(** The state of a Process instance; each Process class acts on it in its
    own way. *)
Context {Inst : Type}.

(** A Process type, as [analyze] uses one: it is called with the keywords
    [input_doc] and [language] to make an instance, the instance is [run],
    and its [output_doc] attribute is read.  The three are code outside
    [nlp.py]; each may raise, and each may read and write any Doc object
    alive.  A Process is handed a Doc and a language code and nothing else,
    so it has no hold on the orchestrator or on its Pipeline object. *)
Record Process : Type := {
  new : loc → string → M docstore Inst;
  run : Inst → M docstore Inst;
  output_doc : Inst → M docstore loc
}.

(** Modelled from the spec: the [Pipeline] dataclass of
    [cltkv1.utils.data_types] is not in [nlp.py]; the spec gives it a
    description, the ordered Process types and the target Language. *)
Record Pipeline : Type := {
  description : string;
  processes : list Process;
  pipeline_language : Language
}.

(** Attributes of an [NLP] object; an attribute is [None] until
    [__init__] has assigned it. *)
Record NLP : Type := {
  language : option Language;
  pipeline : option loc
}.

(** What the methods of one [NLP] object act on: the object itself, the
    Doc objects and the Pipeline objects. *)
Record state : Type := {
  self : NLP;
  docs : docstore;
  pipes : gmap loc Pipeline
}.

Definition set_self (f : NLP → NLP) (s : state) : state :=
  {| self := f (self s); docs := docs s; pipes := pipes s |}.

Definition set_docs (σ : docstore) (s : state) : state :=
  {| self := self s; docs := σ; pipes := pipes s |}.

Definition set_pipes (π : gmap loc Pipeline) (s : state) : state :=
  {| self := self s; docs := docs s; pipes := π |}.

(** A computation on the Doc objects, run inside a method. *)
Definition on_docs {A} (c : M docstore A) : M state A := λ s,
  let (r, σ) := c (docs s) in (r, set_docs σ s).

(** Reading an attribute that may be unset. *)
Definition attr {S A} (a : string) (o : option A) : M S A :=
  match o with
  | Some x => mret x
  | None => raise (AttributeError a)
  end.

(** [d[k]] *)
Definition getitem {S A} (d : gmap string A) (k : string) : M S A :=
  match d !! k with
  | Some x => mret x
  | None => raise (KeyError k)
  end.

(** ** What [nlp.py] imports *)

(** The table behind [get_lang]. *)
Variable LANGUAGES : gmap string Language.

(** Modelled from the spec: [cltkv1.languages.utils.get_lang] is not in
    [nlp.py]; the spec makes it a pure lookup in the registry's table that
    fails with [UnknownLanguageError] when the code is not there. *)
Definition get_lang {S} (iso_code : string) : M S Language :=
  match LANGUAGES !! iso_code with
  | Some l => mret l
  | None => raise (UnknownLanguageError iso_code)
  end.

(** The five classes imported from [cltkv1.utils.pipelines]: what an
    instance of each holds. *)
Variables LatinPipeline GreekPipeline OCSPipeline OldFrenchPipeline
  GothicPipeline : Pipeline.

(** Python's truth value of a Pipeline object, which the class of the
    object decides ([__bool__], else [__len__], else true). *)
Variable truth_value : Pipeline → bool.

(** ** The module itself *)

Definition pipelines : gmap string Pipeline :=
  {[ "lat" := LatinPipeline;
     "grc" := GreekPipeline;
     "chu" := OCSPipeline;
     "fro" := OldFrenchPipeline;
     "got" := GothicPipeline ]}.

(** Calling a Pipeline class: a new Pipeline object. *)
Definition instantiate (cls : Pipeline) : M state loc := λ s,
  let l := new_loc (pipes s) in (inr l, set_pipes (<[l := cls]> (pipes s)) s).

(** [Doc(language=code, raw=text)]: a new Doc object. *)
Definition Doc_alloc (code text : string) : M state loc := λ s,
  let l := new_loc (docs s) in
  (inr l, set_docs (<[l := Doc_new code text]> (docs s)) s).

(** [self.language.iso_639_3_code] *)
Definition self_language_iso_639_3_code : M state string :=
  l ← (o ← gets (λ s, language (self s)); attr "language" o);
  mret (iso_639_3_code l).

(** [self.pipeline.processes] *)
Definition self_pipeline_processes : M state (list Process) :=
  r ← (o ← gets (λ s, pipeline (self s)); attr "pipeline" o);
  p ← (o ← gets (λ s, pipes s !! r); attr "processes" o);
  mret (processes p).

(** The truth value of the [custom_pipeline] argument: [None] is false,
    and an object has the truth value of its class.  Python has no
    reference to an object that is not alive; for an address that holds
    no Pipeline object the reading raises. *)
Definition truthy (custom_pipeline : option loc) : M state bool :=
  match custom_pipeline with
  | None => mret false
  | Some r => p ← (o ← gets (λ s, pipes s !! r); attr "__bool__" o);
              mret (truth_value p)
  end.

Definition _get_pipeline : M state loc :=
  try_except
    (code ← self_language_iso_639_3_code;
     cls ← getitem pipelines code;
     instantiate cls)
    (λ e, match e with
          | KeyError _ =>
              code ← self_language_iso_639_3_code;
              raise (UnimplementedLanguageError code)
          | _ => raise e
          end).

Definition unknown_language_msg (language : string) : string :=
  "Unknown language '" +:+ language +:+ "'. Use ISO 639-3 languages.".

Definition __init__ (language_ : string) (custom_pipeline : option loc)
    : M state unit :=
  l ← try_except (get_lang language_)
        (λ e, match e with
              | UnknownLanguageError _ =>
                  raise (UnknownLanguageError (unknown_language_msg language_))
              | _ => raise e
              end);
  modify (set_self (λ o, {| language := Some l; pipeline := pipeline o |}));;
  p ← (b ← truthy custom_pipeline;
       if b : bool then attr "custom_pipeline" custom_pipeline
       else _get_pipeline);
  modify (set_self (λ o, {| language := language o; pipeline := Some p |})).

(** One turn of the loop of [analyze], from the Doc in [doc] to the Doc
    assigned to [doc]. *)
Definition loop_body (process : Process) (doc : loc) : M state loc :=
  code ← self_language_iso_639_3_code;
  a_process ← on_docs (new process doc code);
  a_process ← on_docs (run process a_process);
  on_docs (output_doc process a_process).

Fixpoint for_loop (ps : list Process) (doc : loc) : M state loc :=
  match ps with
  | [] => mret doc
  | process :: ps' => doc' ← loop_body process doc; for_loop ps' doc'
  end.

Definition analyze (text : string) : M state loc :=
  code ← self_language_iso_639_3_code;
  doc ← Doc_alloc code text;
  ps ← self_pipeline_processes;
  for_loop ps doc.

End Orchestrator.

Arguments Process : clear implicits.
Arguments Pipeline : clear implicits.
Arguments state : clear implicits.

End nlp.

Import nlp.

Section Notions.

Context {Inst : Type}.
Implicit Types (s : state Inst) (process : Process Inst)
  (ps : list (Process Inst)) (c : loc * docstore).

Variable LANGUAGES : gmap string Language.
Variables LatinPipeline GreekPipeline OCSPipeline OldFrenchPipeline
  GothicPipeline : Pipeline Inst.
Variable truth_value : Pipeline Inst → bool.

(** ** Notions the statements use *)

(** What one Process does with the current Doc, on the Doc objects: it is
    instantiated with the Doc and the language code, run, and its output
    Doc is read.  A configuration is the current Doc with the Doc objects
    alive. *)
Definition step (code : string) process c : (exn + loc) * docstore :=
  (a_process ← new process c.1 code;
   a_process ← run process a_process;
   output_doc process a_process) c.2.

(** The configuration [analyze] hands to the first Process: a new Doc
    object holding the language code and the raw text, and nothing else. *)
Definition initial (code text : string) (σ : docstore) : loc * docstore :=
  (new_loc σ, <[new_loc σ := Doc_new code text]> σ).

(** [cfgs] threads the configurations through [ps]: there is one more
    configuration than there are Processes, and the i-th Process takes the
    i-th configuration to the next one without raising. *)
Definition threaded (code : string) ps (cfgs : list (loc * docstore))
    : Prop :=
  length cfgs = S (length ps) ∧
  ∀ i process, ps !! i = Some process →
    ∃ c c', cfgs !! i = Some c ∧ cfgs !! S i = Some c' ∧
            step code process c = (inr c'.1, c'.2).

(** [s] holds an orchestrator that [__init__] has built: its Language is
    [l] and its pipeline attribute is the Pipeline object [p] at [r]. *)
Definition constructed s (l : Language) (r : loc) (p : Pipeline Inst)
    : Prop :=
  language (self s) = Some l ∧ pipeline (self s) = Some r ∧
  pipes s !! r = Some p.

(** A computation that leaves the orchestrator and the Pipeline objects as
    they were, whether it returns or raises. *)
Definition keeps_orchestrator {A} (m : M (state Inst) A) : Prop :=
  ∀ s, self (m s).2 = self s ∧ pipes (m s).2 = pipes s.

(** What the caller of [analyze] gets to see: the exception, or the
    content of the Doc returned. *)
Definition result_doc (r : (exn + loc) * state Inst) : exn + option Doc :=
  match r.1 with
  | inl e => inl e
  | inr d => inr (docs r.2 !! d)
  end.

(** A Process is stateless when what it raises or puts in its output Doc
    is decided by the language code and the content of its input Doc
    ([f]), its output Doc is its input Doc or a new object, and it leaves
    every other Doc object alive as it was. *)
Definition stateless process : Prop :=
  ∃ f : string → Doc → exn + Doc,
    ∀ code d σ doc, σ !! d = Some doc →
      ∃ σ', (∀ l, l ∈ dom σ → l ≠ d → σ' !! l = σ !! l) ∧
            match f code doc with
            | inl e => step code process (d, σ) = (inl e, σ')
            | inr doc' =>
                ∃ d', step code process (d, σ) = (inr d', σ') ∧
                      (d' = d ∨ d' ∉ dom σ) ∧ σ' !! d' = Some doc'
            end.

(** The current Doc of [c] is alive and is none of the Doc objects of
    [σ0], and these are as they were in [σ0]. *)
Definition apart (σ0 : docstore) c : Prop :=
  (c.1 ∉ dom σ0) ∧ is_Some (c.2 !! c.1) ∧
  ∀ k, k ∈ dom σ0 → c.2 !! k = σ0 !! k.

(** Two calls in a row with a mutation between them: when the first call
    returns the Doc [d1] and the caller then overwrites [d1] with [doc'],
    the second call shows the caller what it would have shown without the
    overwriting, the Doc it returns is another object than [d1], and [d1]
    still holds [doc'] afterwards. *)
Definition no_leak (text1 text2 : string) s : Prop :=
  ∀ d1 s1, analyze text1 s = (inr d1, s1) →
    ∀ doc',
      let s1' := set_docs (<[d1 := doc']> (docs s1)) s1 in
      result_doc (analyze text2 s1') = result_doc (analyze text2 s1) ∧
      ∀ d2 s2, analyze text2 s1' = (inr d2, s2) →
               d2 ≠ d1 ∧ docs s2 !! d1 = Some doc'.

(** The [custom_pipeline] argument is false for Python: it is [None], or a
    Pipeline object whose truth value is false. *)
Definition falsy s (custom_pipeline : option loc) : Prop :=
  custom_pipeline = None ∨
  ∃ r p, custom_pipeline = Some r ∧ pipes s !! r = Some p ∧
         truth_value p = false.

(** The constructor takes the Pipeline object at [r] as it is: it returns,
    the pipeline attribute is [r], and no Pipeline object was made. *)
Definition custom_pipeline_kept (language_ : string) (r : loc) s : Prop :=
  ∃ s', __init__ LANGUAGES LatinPipeline GreekPipeline OCSPipeline
          OldFrenchPipeline GothicPipeline truth_value language_ (Some r) s
        = (inr tt, s') ∧
        pipeline (self s') = Some r ∧ pipes s' = pipes s.

End Notions.

Section Composition.

Context {Inst : Type}.
Implicit Types (process : Process Inst).

(** [process] computes [f]: it is stateless, and [f] is what decides, from
    the language code and the content of the input Doc, what it raises or
    puts in its output Doc. *)
Definition computes (f : string → Doc → exn + Doc) process : Prop :=
  ∀ code d (σ : docstore) doc, σ !! d = Some doc →
    ∃ σ', (∀ l, l ∈ dom σ → l ≠ d → σ' !! l = σ !! l) ∧
          match f code doc with
          | inl e => step code process (d, σ) = (inl e, σ')
          | inr doc' =>
              ∃ d', step code process (d, σ) = (inr d', σ') ∧
                    (d' = d ∨ d' ∉ dom σ) ∧ σ' !! d' = Some doc'
          end.

(** The functions of [fs] one after the other, each on what the one
    before it gave, up to the first that raises. *)
Fixpoint in_turn (fs : list (string → Doc → exn + Doc)) (code : string)
    (doc : Doc) : exn + Doc :=
  match fs with
  | [] => inr doc
  | f :: fs' =>
      match f code doc with
      | inl e => inl e
      | inr doc' => in_turn fs' code doc'
      end
  end.

End Composition.

(** ** A small instance to run the module on *)

Module Example.

Definition lat : Language := {| name := "Latin"; iso_639_3_code := "lat" |}.
Definition grc : Language :=
  {| name := "Ancient Greek"; iso_639_3_code := "grc" |}.
Definition chu : Language :=
  {| name := "Church Slavic"; iso_639_3_code := "chu" |}.
Definition fro : Language :=
  {| name := "Old French"; iso_639_3_code := "fro" |}.
Definition got : Language := {| name := "Gothic"; iso_639_3_code := "got" |}.
Definition axm : Language :=
  {| name := "Middle Armenian"; iso_639_3_code := "axm" |}.

(** A registry with the five languages of [pipelines] and one more. *)
Definition LANGUAGES : gmap string Language :=
  {[ "lat" := lat; "grc" := grc; "chu" := chu; "fro" := fro; "got" := got;
     "axm" := axm ]}.

Definition word (text : string) : Word :=
  {| index_char_start := None; index_char_stop := None;
     index_token := Some 1; index_sentence := Some 0;
     string_ := Some text; lemma := None; upos := None; xpos := None;
     feats := None; governor := None; dependency_relation := None |}.

(** What [Tokenize] writes into a Doc: the raw text as one word. *)
Definition tokenized (doc : Doc) : Doc :=
  {| doc_language := doc_language doc; raw := raw doc;
     sentences := sentences doc;
     words := Some (match raw doc with
                    | Some text => [word text]
                    | None => []
                    end) |}.

(** The state of an instance of the three Processes below is the address
    of its Doc.  [Tokenize] fills the words of its input Doc in place. *)
Definition Tokenize : Process loc :=
  {| new := λ input_doc _, mret input_doc;
     run := λ i σ,
       match σ !! i with
       | Some doc => (inr i, <[i := tokenized doc]> σ)
       | None => (inl (AttributeError "raw"), σ)
       end;
     output_doc := λ i, mret i |}.

(** What [Lemmatize] makes of a Doc: each word gets its string as lemma. *)
Definition lemmatized (doc : Doc) : Doc :=
  {| doc_language := doc_language doc; raw := raw doc;
     sentences := sentences doc;
     words :=
       map (λ w, {| index_char_start := index_char_start w;
                    index_char_stop := index_char_stop w;
                    index_token := index_token w;
                    index_sentence := index_sentence w;
                    string_ := string_ w; lemma := string_ w;
                    upos := upos w; xpos := xpos w; feats := feats w;
                    governor := governor w;
                    dependency_relation := dependency_relation w |})
       <$> words doc |}.

(** [Lemmatize] needs the words of its input Doc, which a Process before
    it must have filled, and gives out a new Doc object. *)
Definition Lemmatize : Process loc :=
  {| new := λ input_doc _, mret input_doc;
     run := λ i σ,
       match σ !! i with
       | Some doc =>
           match words doc with
           | Some _ =>
               let l := new_loc σ in (inr l, <[l := lemmatized doc]> σ)
           | None => (inl (OtherError "ValueError" "no words"), σ)
           end
       | None => (inl (AttributeError "words"), σ)
       end;
     output_doc := λ i, mret i |}.

(** [Broken] finds its model missing when it is run. *)
Definition Broken : Process loc :=
  {| new := λ input_doc _, mret input_doc;
     run := λ _, raise (OtherError "FileNotFoundError" "model");
     output_doc := λ i, mret i |}.

(** [Cached] is not stateless: its class keeps the Doc object at address
    1, and every instance gives that object out, whatever its input. *)
Definition Cached : Process loc :=
  {| new := λ _ _, mret 1%positive;
     run := λ i, mret i;
     output_doc := λ i, mret i |}.

Definition default (l : Language) : Pipeline loc :=
  {| description := "Pipeline for " +:+ name l;
     processes := [Tokenize]; pipeline_language := l |}.

(** A Pipeline with no Process. *)
Definition empty_pipeline : Pipeline loc :=
  {| description := "Nothing to do"; processes := [];
     pipeline_language := axm |}.

Definition two_step_pipeline : Pipeline loc :=
  {| description := "Tokenize, then lemmatize";
     processes := [Tokenize; Lemmatize]; pipeline_language := lat |}.

Definition broken_pipeline : Pipeline loc :=
  {| description := "Breaks at the second step";
     processes := [Tokenize; Broken; Tokenize]; pipeline_language := lat |}.

Definition cached_pipeline : Pipeline loc :=
  {| description := "Gives out a cached Doc"; processes := [Cached];
     pipeline_language := lat |}.

(** The truth value of an instance of the plain dataclass. *)
Definition always_true : Pipeline loc → bool := λ _, true.

(** The truth value of an instance of a subclass that defines [__len__]
    as the number of its Processes. *)
Definition by_len : Pipeline loc → bool := λ p,
  match processes p with
  | [] => false
  | _ :: _ => true
  end.

Definition __init__ (truth_value : Pipeline loc → bool) :=
  nlp.__init__ LANGUAGES (default lat) (default grc) (default chu)
    (default fro) (default got) truth_value.

(** An object on which [__init__] has not run yet, with the Pipeline
    objects [π] alive and no Doc object. *)
Definition blank (π : gmap loc (Pipeline loc)) : state loc :=
  {| self := {| language := None; pipeline := None |};
     docs := ∅; pipes := π |}.

(** An orchestrator with the Pipeline object [p], which is at address 1,
    and the Doc objects [σ] alive. *)
Definition orchestrator (l : Language) (p : Pipeline loc) (σ : docstore)
    : state loc :=
  {| self := {| language := Some l; pipeline := Some 1%positive |};
     docs := σ; pipes := {[ 1%positive := p ]} |}.

(** What the caller of the first call does to the Doc it got. *)
Definition scribbled : Doc :=
  {| doc_language := Some "lat"; raw := Some "scribbled over";
     sentences := None; words := None |}.

End Example.

(** * Properties *)

Section Properties.

Context {Inst : Type}.
Implicit Types (s : state Inst) (process : Process Inst)
  (ps : list (Process Inst)) (c : loc * docstore).

Variable LANGUAGES : gmap string Language.
Variables LatinPipeline GreekPipeline OCSPipeline OldFrenchPipeline
  GothicPipeline : Pipeline Inst.
Variable truth_value : Pipeline Inst → bool.

Local Abbreviation pipelines := (pipelines LatinPipeline GreekPipeline
  OCSPipeline OldFrenchPipeline GothicPipeline).
Local Abbreviation _get_pipeline := (_get_pipeline LatinPipeline GreekPipeline
  OCSPipeline OldFrenchPipeline GothicPipeline).
Local Abbreviation __init__ := (__init__ LANGUAGES LatinPipeline GreekPipeline
  OCSPipeline OldFrenchPipeline GothicPipeline truth_value).
(** The state once [self.language] has been assigned. *)
Local Abbreviation with_language l s :=
  (set_self (λ o, {| language := Some l; pipeline := pipeline o |}) s).

(** ** The state *)

Lemma state_eq s s' :
  self s = self s' → docs s = docs s' → pipes s = pipes s' → s = s'.
Proof. destruct s, s'; simpl; congruence. Qed.

Lemma set_docs_id s : set_docs (docs s) s = s.
Proof. by destruct s. Qed.

(** ** Reading the attributes *)

Lemma read_code s l :
  language (self s) = Some l →
  self_language_iso_639_3_code s = (inr (iso_639_3_code l), s).
Proof.
  intros Hl. unfold self_language_iso_639_3_code, mbind, M_bind, gets.
  by rewrite Hl.
Qed.

Lemma read_code_unset s :
  language (self s) = None →
  self_language_iso_639_3_code s = (inl (AttributeError "language"), s).
Proof.
  intros Hl. unfold self_language_iso_639_3_code, mbind, M_bind, gets.
  by rewrite Hl.
Qed.

Lemma read_processes s l r p :
  constructed s l r p → self_pipeline_processes s = (inr (processes p), s).
Proof.
  intros (_ & Hr & Hp).
  unfold self_pipeline_processes, mbind, M_bind, gets.
  rewrite Hr. simpl. by rewrite Hp.
Qed.

(** ** The loop *)

Lemma loop_body_step s l process d :
  language (self s) = Some l →
  loop_body process d s =
    ((step (iso_639_3_code l) process (d, docs s)).1,
     set_docs (step (iso_639_3_code l) process (d, docs s)).2 s).
Proof.
  intros Hl. unfold loop_body, step. unfold mbind at 1, M_bind at 1.
  rewrite (read_code _ _ Hl). unfold mbind, M_bind, on_docs. simpl.
  destruct (new process d (iso_639_3_code l) (docs s)) as [[e|i] σ1]; [done|].
  simpl. destruct (run process i σ1) as [[e|i'] σ2]; [done|].
  simpl. by destruct (output_doc process i' σ2) as [[e|d'] σ3].
Qed.

Lemma for_loop_cons process ps d s :
  for_loop (process :: ps) d s =
    match loop_body process d s with
    | (inl e, s') => (inl e, s')
    | (inr d', s') => for_loop ps d' s'
    end.
Proof. done. Qed.

Lemma for_loop_app ps1 ps2 d s :
  for_loop (ps1 ++ ps2) d s =
    match for_loop ps1 d s with
    | (inl e, s') => (inl e, s')
    | (inr d', s') => for_loop ps2 d' s'
    end.
Proof.
  revert d s. induction ps1 as [|p ps1 IH]; intros d s; [done|].
  rewrite <- app_comm_cons, !for_loop_cons.
  destruct (loop_body p d s) as [[e|d'] s']; [done|]. apply IH.
Qed.

(** ** Threading *)

Lemma threaded_nil code c : threaded (Inst:=Inst) code [] [c].
Proof. split; [done|]. intros i p Hp. by rewrite lookup_nil in Hp. Qed.

Lemma threaded_cons code process ps c c' cfgs :
  step code process c = (inr c'.1, c'.2) →
  threaded code ps (c' :: cfgs) →
  threaded code (process :: ps) (c :: c' :: cfgs).
Proof.
  intros Hstep [Hlen Hth]. split; [simpl in *; lia|].
  intros [|i] p Hp; simpl in Hp.
  - injection Hp as <-. by exists c, c'.
  - apply Hth in Hp. done.
Qed.

Lemma threaded_inv_nil code cfgs :
  threaded (Inst:=Inst) code [] cfgs → ∃ c, cfgs = [c].
Proof.
  intros [Hlen _]. destruct cfgs as [|c [|??]]; simpl in Hlen; try lia.
  by exists c.
Qed.

Lemma threaded_inv_cons code process ps cfgs :
  threaded code (process :: ps) cfgs →
  ∃ c c' cfgs', cfgs = c :: c' :: cfgs' ∧
                step code process c = (inr c'.1, c'.2) ∧
                threaded code ps (c' :: cfgs').
Proof.
  intros [Hlen Hth].
  destruct cfgs as [|c [|c' cfgs']]; simpl in Hlen; try lia.
  exists c, c', cfgs'. split; [done|].
  destruct (Hth 0 process eq_refl) as (c0 & c1 & H0 & H1 & Hstep).
  simpl in H0, H1. injection H0 as <-. injection H1 as <-.
  split; [done|]. split; [simpl in *; lia|].
  intros i p Hp. apply (Hth (S i) p Hp).
Qed.

(** The loop returns exactly when the configurations can be threaded
    through the Processes; it then returns the Doc of the last
    configuration and has touched nothing but the Doc objects. *)
Lemma for_loop_returns s l ps d d' s' :
  language (self s) = Some l →
  for_loop ps d s = (inr d', s') ↔
  ∃ cfgs, threaded (iso_639_3_code l) ps cfgs ∧
          head cfgs = Some (d, docs s) ∧ last cfgs = Some (d', docs s') ∧
          self s' = self s ∧ pipes s' = pipes s.
Proof.
  intros Hl. revert d s Hl. induction ps as [|p ps IH]; intros d s Hl.
  - simpl. split.
    + intros [= <- <-]. exists [(d, docs s)].
      split_and!; [apply threaded_nil|done..].
    + intros (cfgs & [c ->]%threaded_inv_nil & [= ->] & [= Hd] & Hself & Hp).
      unfold mret, M_ret. simpl in Hd.
      f_equal; [congruence|]. apply state_eq; congruence.
  - rewrite for_loop_cons, (loop_body_step _ _ _ _ Hl).
    destruct (step (iso_639_3_code l) p (d, docs s)) as [[e|d1] σ1] eqn:Hstep;
      simpl.
    + split; [done|].
      intros (cfgs & (c & c' & cfgs' & -> & Hs & _)%threaded_inv_cons
                   & [= ->] & _).
      rewrite Hstep in Hs. done.
    + rewrite (IH d1 (set_docs σ1 s) Hl). simpl. split.
      * intros (cfgs & Hth & Hhd & Hlast & Hself & Hp).
        destruct cfgs as [|c' cfgs']; [done|]. injection Hhd as ->.
        exists ((d, docs s) :: (d1, σ1) :: cfgs'). split_and!; try done.
        apply threaded_cons; done.
      * intros (cfgs & (c & c' & cfgs' & -> & Hs & Hth)%threaded_inv_cons
                     & [= ->] & Hlast & Hself & Hp).
        rewrite Hstep in Hs. injection Hs as Hd1 Hσ1.
        exists (c' :: cfgs'). split_and!; try done.
        simpl. f_equal. destruct c'; simpl in *; congruence.
Qed.

(** The loop stops at the first Process that raises, with that exception
    and the Doc objects as that Process left them. *)
Lemma for_loop_raises s l ps1 process ps2 cfgs d c e σ' :
  language (self s) = Some l →
  threaded (iso_639_3_code l) ps1 cfgs →
  head cfgs = Some (d, docs s) → last cfgs = Some c →
  step (iso_639_3_code l) process c = (inl e, σ') →
  for_loop (ps1 ++ process :: ps2) d s = (inl e, set_docs σ' s).
Proof.
  intros Hl Hth Hhd Hlast Hstep. rewrite for_loop_app.
  destruct c as [d1 σ1].
  assert (for_loop ps1 d s = (inr d1, set_docs σ1 s)) as ->.
  { apply (for_loop_returns _ _ _ _ _ _ Hl). by exists cfgs. }
  rewrite for_loop_cons, (loop_body_step _ l); [|done]. simpl.
  by rewrite Hstep.
Qed.

(** The loop raises exactly when some Process raises after the ones before
    it have been threaded through. *)
Lemma for_loop_raises_inv s l ps d e s' :
  language (self s) = Some l →
  for_loop ps d s = (inl e, s') →
  ∃ ps1 process ps2 cfgs c,
    ps = ps1 ++ process :: ps2 ∧
    threaded (iso_639_3_code l) ps1 cfgs ∧
    head cfgs = Some (d, docs s) ∧ last cfgs = Some c ∧
    step (iso_639_3_code l) process c = (inl e, docs s') ∧
    self s' = self s ∧ pipes s' = pipes s.
Proof.
  revert d s. induction ps as [|p ps IH]; intros d s Hl; [done|].
  rewrite for_loop_cons, (loop_body_step _ _ _ _ Hl).
  destruct (step (iso_639_3_code l) p (d, docs s)) as [[e1|d1] σ1] eqn:Hstep;
    simpl.
  - intros [= <- <-]. exists [], p, ps, [(d, docs s)], (d, docs s).
    split_and!; done || apply threaded_nil.
  - intros (ps1 & q & ps2 & cfgs & c & -> & Hth & Hhd & Hlast & Hq & Hself
            & Hp)%IH; [|done].
    destruct cfgs as [|c' cfgs']; [done|]. injection Hhd as ->.
    exists (p :: ps1), q, ps2, ((d, docs s) :: (d1, σ1) :: cfgs'), c.
    split_and!; try done. by apply threaded_cons.
Qed.

(** ** [analyze] *)

Lemma initial_fresh code text (σ : docstore) : (initial code text σ).1 ∉ dom σ.
Proof. apply is_fresh. Qed.

Lemma initial_lookup code text (σ : docstore) :
  (initial code text σ).2 !! (initial code text σ).1 = Some (Doc_new code text).
Proof. apply lookup_insert_eq. Qed.

Lemma initial_frame code text (σ : docstore) k :
  k ∈ dom σ → (initial code text σ).2 !! k = σ !! k.
Proof.
  intros Hk. apply lookup_insert_ne. intros <-.
  by apply (initial_fresh code text σ).
Qed.

Lemma analyze_for_loop s l r p text :
  constructed s l r p →
  analyze text s =
    for_loop (processes p) (initial (iso_639_3_code l) text (docs s)).1
      (set_docs (initial (iso_639_3_code l) text (docs s)).2 s).
Proof.
  intros Hc. unfold analyze. unfold mbind at 1, M_bind at 1.
  rewrite (read_code s l) by apply Hc. unfold mbind, M_bind, Doc_alloc.
  by rewrite (read_processes _ l r p).
Qed.

(** ** What [analyze] leaves alone *)

Lemma keeps_ret {A} (a : A) : keeps_orchestrator (Inst:=Inst) (mret a).
Proof. done. Qed.

Lemma keeps_raise {A} e : keeps_orchestrator (Inst:=Inst) (A:=A) (raise e).
Proof. done. Qed.

Lemma keeps_gets {A} (f : state Inst → A) : keeps_orchestrator (gets f).
Proof. done. Qed.

Lemma keeps_attr {A} a (o : option A) :
  keeps_orchestrator (Inst:=Inst) (attr a o).
Proof. by destruct o. Qed.

Lemma keeps_bind {A B} (c : M (state Inst) A) (f : A → M (state Inst) B) :
  keeps_orchestrator c → (∀ a, keeps_orchestrator (f a)) →
  keeps_orchestrator (c ≫= f).
Proof.
  intros Hc Hf s. unfold mbind, M_bind. specialize (Hc s).
  destruct (c s) as [[e|a] s1]; [done|]. simpl in Hc.
  destruct (Hf a s1) as [-> ->]. done.
Qed.

Lemma keeps_on_docs {A} (c : M docstore A) :
  keeps_orchestrator (Inst:=Inst) (on_docs c).
Proof. intros s. unfold on_docs. by destruct (c (docs s)). Qed.

Lemma keeps_Doc_alloc code text :
  keeps_orchestrator (Inst:=Inst) (Doc_alloc code text).
Proof. done. Qed.

Lemma keeps_self_language_iso_639_3_code :
  keeps_orchestrator (Inst:=Inst) self_language_iso_639_3_code.
Proof.
  unfold self_language_iso_639_3_code.
  repeat first [apply keeps_bind; [|intros ?] | apply keeps_gets
               | apply keeps_attr | apply keeps_ret].
Qed.

Lemma keeps_self_pipeline_processes :
  keeps_orchestrator (Inst:=Inst) self_pipeline_processes.
Proof.
  unfold self_pipeline_processes.
  repeat first [apply keeps_bind; [|intros ?] | apply keeps_gets
               | apply keeps_attr | apply keeps_ret].
Qed.

Lemma keeps_loop_body process d : keeps_orchestrator (loop_body process d).
Proof.
  unfold loop_body.
  repeat first [apply keeps_on_docs
               | apply keeps_self_language_iso_639_3_code
               | apply keeps_bind; [|intros ?] ].
Qed.

Lemma keeps_for_loop ps d : keeps_orchestrator (for_loop ps d).
Proof.
  revert d. induction ps as [|p ps IH]; intros d; [apply keeps_ret|].
  apply keeps_bind; [apply keeps_loop_body|done].
Qed.

Lemma keeps_analyze text : keeps_orchestrator (Inst:=Inst) (analyze text).
Proof.
  unfold analyze.
  repeat first [apply keeps_self_language_iso_639_3_code
               | apply keeps_self_pipeline_processes
               | apply keeps_Doc_alloc | apply keeps_for_loop
               | apply keeps_bind; [|intros ?] ].
Qed.

(** C1.  On an orchestrator that has been built, [analyze] starts from a
    Doc object that was not there before, whose language is the
    orchestrator's ISO-639-3 code, whose raw is the text and whose other
    fields are unset, beside the Doc objects there were; and it returns a
    Doc exactly when the configurations can be threaded from there
    through the Processes of the pipeline in their order: the i-th
    Process is instantiated with the i-th Doc and the code and run, and
    the Doc it gives out is the one the next Process gets; the Doc
    returned is the one the last Process gave out. *)
Theorem analyze_threads_the_document s l r p text d s' :
  constructed s l r p →
  let code := iso_639_3_code l in
  let d0 := new_loc (docs s) in
  let doc0 := {| doc_language := Some code; raw := Some text;
                 sentences := None; words := None |} in
  (d0 ∉ dom (docs s)) ∧
  (analyze text s = (inr d, s') ↔
   ∃ cfgs, threaded code (processes p) cfgs ∧
           head cfgs = Some (d0, <[d0 := doc0]> (docs s)) ∧
           last cfgs = Some (d, docs s') ∧
           self s' = self s ∧ pipes s' = pipes s).
Proof.
  intros Hc code d0 doc0. subst code d0 doc0. split; [apply is_fresh|].
  rewrite (analyze_for_loop s l r p text Hc).
  by rewrite (for_loop_returns _ l); [|apply Hc].
Qed.

(** C4.  On an orchestrator that has been built, [analyze] raises [e]
    exactly when some Process of the pipeline raises [e] after the
    Processes before it have been threaded through: the exception is the
    one the Process raised, no Doc is returned, no later Process has run
    (the Doc objects are as the failing Process left them), and the
    orchestrator and its pipeline are untouched. *)
Theorem analyze_propagates_the_error s l r p text e s' :
  constructed s l r p →
  analyze text s = (inl e, s') ↔
  ∃ ps1 process ps2 cfgs c,
    processes p = ps1 ++ process :: ps2 ∧
    threaded (iso_639_3_code l) ps1 cfgs ∧
    head cfgs = Some (initial (iso_639_3_code l) text (docs s)) ∧
    last cfgs = Some c ∧
    step (iso_639_3_code l) process c = (inl e, docs s') ∧
    self s' = self s ∧ pipes s' = pipes s.
Proof.
  intros Hc. rewrite (analyze_for_loop s l r p text Hc).
  pose proof Hc as (Hl & _). split.
  - intros (ps1 & q & ps2 & cfgs & c & H)%(for_loop_raises_inv _ l); [|done].
    by exists ps1, q, ps2, cfgs, c.
  - intros (ps1 & q & ps2 & cfgs & c & -> & Hth & Hhd & Hlast & Hq & Hself
            & Hp).
    rewrite (for_loop_raises _ l ps1 q ps2 cfgs _ c e (docs s'));
      try done.
    f_equal. apply state_eq; simpl; congruence.
Qed.

(** C9.  Whatever the text, and whether [analyze] returns or raises, the
    orchestrator's attributes and the Pipeline objects are after the call
    what they were before it. *)
Theorem analyze_keeps_the_orchestrator text s :
  self (analyze text s).2 = self s ∧ pipes (analyze text s).2 = pipes s.
Proof. apply keeps_analyze. Qed.

(** C10.  When the pipeline has no Process, [analyze] runs none: it
    returns the new Doc object it started from, which holds the
    orchestrator's ISO-639-3 code as language and the text as raw and has
    no other field set, and every Doc object there was is as it was. *)
Theorem analyze_empty_pipeline s l r p text :
  constructed s l r p → processes p = [] →
  ∃ d s', analyze text s = (inr d, s') ∧
          (d ∉ dom (docs s)) ∧
          docs s' !! d = Some {| doc_language := Some (iso_639_3_code l);
                                 raw := Some text;
                                 sentences := None; words := None |} ∧
          (∀ k, k ∈ dom (docs s) → docs s' !! k = docs s !! k) ∧
          self s' = self s ∧ pipes s' = pipes s.
Proof.
  intros Hc Hps. rewrite (analyze_for_loop s l r p text Hc), Hps.
  eexists _, _. split; [reflexivity|].
  split_and!; [apply initial_fresh|apply initial_lookup| |done..].
  intros k. apply initial_frame.
Qed.

(** ** Stateless Processes *)

(** With stateless Processes the loop shows the caller the same thing from
    any two states of one language whose current Docs hold the same
    content, and a Doc it returns is alive. *)
Lemma for_loop_stateless ps l s1 s2 d1 d2 doc :
  Forall stateless ps →
  language (self s1) = Some l → language (self s2) = Some l →
  docs s1 !! d1 = Some doc → docs s2 !! d2 = Some doc →
  result_doc (for_loop ps d1 s1) = result_doc (for_loop ps d2 s2).
Proof.
  intros Hps. revert s1 s2 d1 d2 doc.
  induction Hps as [|p ps [f Hf] _ IH]; intros s1 s2 d1 d2 doc Hl1 Hl2 H1 H2.
  - unfold result_doc. simpl. by rewrite H1, H2.
  - rewrite !for_loop_cons, (loop_body_step _ l), (loop_body_step _ l);
      [|done..].
    destruct (Hf (iso_639_3_code l) d1 (docs s1) doc H1) as (σ1 & _ & Hs1).
    destruct (Hf (iso_639_3_code l) d2 (docs s2) doc H2) as (σ2 & _ & Hs2).
    destruct (f (iso_639_3_code l) doc) as [e|doc'].
    + by rewrite Hs1, Hs2.
    + destruct Hs1 as (d1' & -> & _ & H1'), Hs2 as (d2' & -> & _ & H2').
      simpl. by apply (IH _ _ _ _ doc').
Qed.

Lemma for_loop_apart ps l s d σ0 d' s' :
  Forall stateless ps → language (self s) = Some l →
  apart σ0 (d, docs s) →
  for_loop ps d s = (inr d', s') → apart σ0 (d', docs s').
Proof.
  intros Hps. revert s d.
  induction Hps as [|p ps [f Hf] _ IH]; intros s d Hl Hd.
  - by intros [= <- <-].
  - rewrite for_loop_cons, (loop_body_step _ l); [|done].
    destruct Hd as (Hnew & [doc Hdoc] & Hold). simpl in *.
    destruct (Hf (iso_639_3_code l) d (docs s) doc Hdoc) as (σ1 & Hfr & Hs).
    destruct (f (iso_639_3_code l) doc) as [e|doc'].
    + by rewrite Hs.
    + destruct Hs as (d1 & -> & Hd1 & Hdoc'). simpl. apply IH; [done|].
      assert (∀ k, k ∈ dom σ0 → k ∈ dom (docs s)) as Hsub.
      { intros k Hk. apply elem_of_dom. rewrite (Hold k Hk).
        by apply elem_of_dom. }
      split_and!; simpl.
      * destruct Hd1 as [->|Hd1]; [done|]. intros Hk. by apply Hd1, Hsub.
      * by rewrite Hdoc'.
      * intros k Hk. rewrite <- (Hold k Hk). apply Hfr; [by apply Hsub|].
        by intros ->.
Qed.

Lemma analyze_apart s l r p text d s' :
  constructed s l r p → Forall stateless (processes p) →
  analyze text s = (inr d, s') → apart (docs s) (d, docs s').
Proof.
  intros Hc Hps. rewrite (analyze_for_loop s l r p text Hc).
  apply (for_loop_apart _ l); [done|apply Hc|].
  split_and!; [apply initial_fresh| |intros k; apply initial_frame].
  eexists. apply initial_lookup.
Qed.

Lemma analyze_stateless s1 s2 l r1 r2 p text :
  constructed s1 l r1 p → constructed s2 l r2 p →
  Forall stateless (processes p) →
  result_doc (analyze text s1) = result_doc (analyze text s2).
Proof.
  intros Hc1 Hc2 Hps.
  rewrite (analyze_for_loop s1 l r1 p text Hc1).
  rewrite (analyze_for_loop s2 l r2 p text Hc2).
  apply (for_loop_stateless _ l _ _ _ _ (Doc_new (iso_639_3_code l) text));
    [done|apply Hc1|apply Hc2|apply initial_lookup..].
Qed.

(** C7, amended.  On an orchestrator that has been built and whose
    Processes are all stateless: a Doc that [analyze] returns is an object
    that was not there before the call, and the call leaves the Doc
    objects that were there as they were; what a call shows the caller is
    the same from every state that holds an orchestrator of this language
    and this pipeline, whatever Doc objects are alive; and overwriting the
    Doc of a first call changes nothing of what a second call shows, nor
    does the second call give that Doc out again or write to it. *)
Theorem stateless_calls_are_independent s l r p :
  constructed s l r p → Forall stateless (processes p) →
  (∀ text d s', analyze text s = (inr d, s') →
     (d ∉ dom (docs s)) ∧ ∀ k, k ∈ dom (docs s) → docs s' !! k = docs s !! k) ∧
  (∀ text s2 r2, constructed s2 l r2 p →
     result_doc (analyze text s2) = result_doc (analyze text s)) ∧
  (∀ text1 text2, no_leak text1 text2 s).
Proof.
  intros Hc Hps. split_and!.
  - intros text d s' Ha.
    destruct (analyze_apart s l r p text d s' Hc Hps Ha) as (Hd & _ & Hold).
    done.
  - intros text s2 r2 Hc2. by apply (analyze_stateless s2 s l r2 r p).
  - intros text1 text2 d1 s1 Ha1 doc' s1'.
    destruct (keeps_analyze text1 s) as [Hself Hpipes].
    rewrite Ha1 in Hself, Hpipes. simpl in Hself, Hpipes.
    assert (constructed s1 l r p) as Hc1.
    { destruct Hc as (Hl & Hr & Hp). unfold constructed.
      by rewrite Hself, Hpipes. }
    assert (constructed s1' l r p) as Hc1' by done.
    split; [by apply (analyze_stateless s1' s1 l r r p)|].
    intros d2 s2 Ha2.
    destruct (analyze_apart s1' l r p text2 d2 s2 Hc1' Hps Ha2)
      as (Hd2 & _ & Hold). simpl in Hd2, Hold.
    assert (d1 ∈ dom (<[d1:=doc']> (docs s1))) as Hd1.
    { apply elem_of_dom. rewrite lookup_insert_eq. by eexists. }
    split; [by intros ->|]. rewrite (Hold d1 Hd1). apply lookup_insert_eq.
Qed.

(** ** The constructor *)

Lemma pipelines_dom :
  dom pipelines = {[ "lat"; "grc"; "chu"; "fro"; "got" ]}.
Proof. unfold nlp.pipelines. rewrite !dom_insert_L, dom_singleton_L. done. Qed.

Lemma _get_pipeline_eq s l :
  language (self s) = Some l →
  _get_pipeline s =
    match pipelines !! iso_639_3_code l with
    | Some cls => (inr (new_loc (pipes s)),
                   set_pipes (<[new_loc (pipes s) := cls]> (pipes s)) s)
    | None => (inl (UnimplementedLanguageError (iso_639_3_code l)), s)
    end.
Proof.
  intros Hl. unfold nlp._get_pipeline, try_except.
  unfold mbind at 1, M_bind at 1. rewrite (read_code s l Hl).
  unfold mbind at 1, M_bind at 1, getitem.
  destruct (pipelines !! iso_639_3_code l) as [cls|]; [done|].
  unfold raise at 1. unfold mbind, M_bind. by rewrite (read_code s l Hl).
Qed.

Lemma __init___unknown s language_ custom_pipeline :
  LANGUAGES !! language_ = None →
  __init__ language_ custom_pipeline s =
    (inl (UnknownLanguageError (unknown_language_msg language_)), s).
Proof.
  intros Hl. unfold nlp.__init__.
  unfold mbind at 1, M_bind at 1, try_except, get_lang. by rewrite Hl.
Qed.

Lemma __init___known s language_ custom_pipeline l :
  LANGUAGES !! language_ = Some l →
  __init__ language_ custom_pipeline s =
    match truthy truth_value custom_pipeline (with_language l s) with
    | (inl e, s') => (inl e, s')
    | (inr true, s') =>
        match custom_pipeline with
        | Some r => (inr (), set_self (λ o, {| language := language o;
                                               pipeline := Some r |}) s')
        | None => (inl (AttributeError "custom_pipeline"), s')
        end
    | (inr false, s') =>
        match _get_pipeline s' with
        | (inl e, s'') => (inl e, s'')
        | (inr r, s'') => (inr (), set_self (λ o, {| language := language o;
                                                     pipeline := Some r |}) s'')
        end
    end.
Proof.
  intros Hl. unfold nlp.__init__.
  unfold mbind at 1, M_bind at 1, try_except, get_lang. rewrite Hl.
  unfold mret at 1, M_ret at 1. unfold mbind, M_bind, modify. simpl.
  destruct (truthy truth_value custom_pipeline _) as [[e|[|]] s1]; [done|..].
  - by destruct custom_pipeline.
  - by destruct (_get_pipeline s1) as [[e|r] s2].
Qed.

Lemma truthy_falsy s custom_pipeline :
  falsy truth_value s custom_pipeline ↔
  truthy truth_value custom_pipeline s = (inr false, s).
Proof.
  unfold falsy, truthy. destruct custom_pipeline as [r|].
  - unfold mbind, M_bind, gets. simpl. split.
    + intros [[=]|(r' & p & [= <-] & -> & Hp)]. simpl.
      unfold mret, M_ret. by rewrite Hp.
    + destruct (pipes s !! r) as [p|] eqn:Hr; [|done]. simpl.
      unfold mret, M_ret. intros [= Hp]. right. by exists r, p.
  - split; [done|]. by left.
Qed.

Lemma falsy_with_language s custom_pipeline l :
  falsy truth_value s custom_pipeline →
  falsy truth_value (with_language l s) custom_pipeline.
Proof. done. Qed.

(** C2.  When the language code is not in the Language Registry, the
    constructor raises [UnknownLanguageError], with the message of
    [nlp.py], whatever the custom pipeline; the state is what it was: no
    attribute is set, no Pipeline object is made or looked at, and no Doc
    object is made. *)
Theorem unknown_language_raises s language_ custom_pipeline :
  LANGUAGES !! language_ = None →
  __init__ language_ custom_pipeline s =
    (inl (UnknownLanguageError
            ("Unknown language '" +:+ language_ +:+
             "'. Use ISO 639-3 languages.")), s).
Proof. apply __init___unknown. Qed.

(** C3.  When the Language Registry has the language code, under that
    code, and the default pipeline table has no entry for it, the
    constructor called without a custom pipeline raises
    [UnimplementedLanguageError] with the code; the language attribute has
    been assigned by then, and nothing else has changed. *)
Theorem unimplemented_language_raises s language_ l :
  LANGUAGES !! language_ = Some l → iso_639_3_code l = language_ →
  pipelines !! language_ = None →
  __init__ language_ None s =
    (inl (UnimplementedLanguageError language_), with_language l s).
Proof.
  intros Hl Hiso Hp. rewrite (__init___known _ _ _ l Hl). simpl.
  rewrite (_get_pipeline_eq _ l); [|done]. by rewrite Hiso, Hp.
Qed.

(** C5, amended.  When the language code is in the Language Registry and
    the custom pipeline is a Pipeline object that Python takes for true,
    the constructor returns with that very object as its pipeline
    attribute and makes no Pipeline object, whether the default pipeline
    table has an entry for the language or not. *)
Theorem truthy_custom_pipeline_kept s language_ l r p :
  LANGUAGES !! language_ = Some l →
  pipes s !! r = Some p → truth_value p = true →
  custom_pipeline_kept LANGUAGES LatinPipeline GreekPipeline OCSPipeline
    OldFrenchPipeline GothicPipeline truth_value language_ r s.
Proof.
  intros Hl Hr Hp. unfold custom_pipeline_kept.
  rewrite (__init___known _ _ _ l Hl).
  unfold truthy, mbind, M_bind, gets. simpl. rewrite Hr. simpl.
  unfold mret, M_ret. rewrite Hp. by eexists.
Qed.

(** C8.  A custom pipeline that is false for Python, [None] or a Pipeline
    object whose truth value is false, is treated as no custom pipeline at
    all: the constructor does what it does when called with [None].  With
    a language of the registry it raises [UnimplementedLanguageError] when
    the default pipeline table has no entry for the language's code, and
    else makes a new object of the default class its pipeline attribute,
    not the object supplied. *)
Theorem falsy_custom_pipeline_ignored s language_ custom_pipeline :
  falsy truth_value s custom_pipeline →
  __init__ language_ custom_pipeline s = __init__ language_ None s ∧
  ∀ l, LANGUAGES !! language_ = Some l →
    match pipelines !! iso_639_3_code l with
    | None =>
        __init__ language_ custom_pipeline s =
          (inl (UnimplementedLanguageError (iso_639_3_code l)),
           with_language l s)
    | Some cls =>
        ∃ r' s', __init__ language_ custom_pipeline s = (inr (), s') ∧
                 pipeline (self s') = Some r' ∧
                 custom_pipeline ≠ Some r' ∧
                 pipes s !! r' = None ∧
                 pipes s' = <[r' := cls]> (pipes s)
    end.
Proof.
  intros Hf.
  assert (∀ l, LANGUAGES !! language_ = Some l →
    __init__ language_ custom_pipeline s =
      match _get_pipeline (with_language l s) with
      | (inl e, s'') => (inl e, s'')
      | (inr r, s'') => (inr (), set_self (λ o, {| language := language o;
                                                   pipeline := Some r |}) s'')
      end) as Hinit.
  { intros l Hl. rewrite (__init___known _ _ _ l Hl).
    apply (falsy_with_language _ _ l), truthy_falsy in Hf. by rewrite Hf. }
  split.
  - destruct (LANGUAGES !! language_) as [l|] eqn:Hl.
    + by rewrite (Hinit l eq_refl), (__init___known s language_ None l Hl).
    + by rewrite !__init___unknown.
  - intros l Hl. rewrite (Hinit l Hl), (_get_pipeline_eq _ l); [|done].
    destruct (pipelines !! iso_639_3_code l) as [cls|]; [|done].
    eexists (new_loc (pipes s)), _. split; [done|]. simpl.
    assert (pipes s !! new_loc (pipes s) = None) as Hnew.
    { apply not_elem_of_dom, is_fresh. }
    split_and!; try done.
    destruct Hf as [->|(r & p & -> & Hr & _)]; [done|]. intros [= ->].
    by rewrite Hnew in Hr.
Qed.

(** What the constructor leaves when it returns: an orchestrator that has
    been built, for a language of the registry, and the Doc objects there
    were. *)
Lemma __init___constructed s language_ custom_pipeline s' :
  __init__ language_ custom_pipeline s = (inr (), s') →
  ∃ l r p, LANGUAGES !! language_ = Some l ∧ constructed s' l r p ∧
           docs s' = docs s.
Proof.
  destruct (LANGUAGES !! language_) as [l|] eqn:Hl;
    [|by rewrite __init___unknown].
  rewrite (__init___known _ _ _ l Hl). intros H. exists l.
  destruct custom_pipeline as [r|]; simpl in H.
  - unfold truthy, mbind, M_bind, gets in H. simpl in H.
    destruct (pipes s !! r) as [p|] eqn:Hr; simpl in H; [|done].
    unfold mret, M_ret in H. destruct (truth_value p).
    + injection H as <-. by exists r, p.
    + rewrite (_get_pipeline_eq _ l) in H; [|done].
      destruct (pipelines !! iso_639_3_code l) as [cls|]; [|done].
      injection H as <-. exists (new_loc (pipes s)), cls.
      repeat split; try done. simpl. apply lookup_insert_eq.
  - rewrite (_get_pipeline_eq _ l) in H; [|done].
    destruct (pipelines !! iso_639_3_code l) as [cls|]; [|done].
    injection H as <-. exists (new_loc (pipes s)), cls.
    repeat split; try done. simpl. apply lookup_insert_eq.
Qed.

(** * More on the constructor *)

(** X1.  Called without a custom pipeline, the constructor returns exactly
    when the registry has the language code and the ISO-639-3 code of the
    Language it gives is one of the five keys of [pipelines]. *)
Theorem default_construction_returns_iff s language_ :
  (∃ s', __init__ language_ None s = (inr (), s')) ↔
  ∃ l, LANGUAGES !! language_ = Some l ∧
       iso_639_3_code l ∈
         ({[ "lat"; "grc"; "chu"; "fro"; "got" ]} : gset string).
Proof.
  rewrite <- pipelines_dom. split.
  - intros [s' H]. destruct (LANGUAGES !! language_) as [l|] eqn:Hl;
      [|by rewrite __init___unknown in H].
    exists l. split; [done|]. apply elem_of_dom.
    rewrite (__init___known _ _ _ l Hl) in H. simpl in H.
    rewrite (_get_pipeline_eq _ l) in H; [|done].
    by destruct (pipelines !! iso_639_3_code l).
  - intros (l & Hl & [cls Hcls]%elem_of_dom).
    rewrite (__init___known _ _ _ l Hl). simpl.
    rewrite (_get_pipeline_eq _ l); [|done]. rewrite Hcls. by eexists.
Qed.

(** X2.  With a custom pipeline that is [None] or a live Pipeline object,
    the constructor raises nothing but [UnknownLanguageError], when the
    registry has not the language code, and
    [UnimplementedLanguageError], when the custom pipeline is false for
    Python and [pipelines] has no entry for the code of the Language; the
    [KeyError] of the failed subscript never comes out. *)
Theorem constructor_raises_only s language_ custom_pipeline e s' :
  (∀ r, custom_pipeline = Some r → is_Some (pipes s !! r)) →
  __init__ language_ custom_pipeline s = (inl e, s') →
  (LANGUAGES !! language_ = None ∧
   e = UnknownLanguageError (unknown_language_msg language_) ∧ s' = s) ∨
  (∃ l, LANGUAGES !! language_ = Some l ∧
        pipelines !! iso_639_3_code l = None ∧
        falsy truth_value s custom_pipeline ∧
        e = UnimplementedLanguageError (iso_639_3_code l) ∧
        s' = with_language l s).
Proof.
  intros Hlive H. destruct (LANGUAGES !! language_) as [l|] eqn:Hl.
  - right. exists l. rewrite (__init___known _ _ _ l Hl) in H.
    assert (falsy truth_value s custom_pipeline ∧
            _get_pipeline (with_language l s) = (inl e, s')) as [Hf Hg].
    { destruct custom_pipeline as [r|].
      - destruct (Hlive r eq_refl) as [p Hp].
        unfold truthy, mbind, M_bind, gets in H. simpl in H.
        rewrite Hp in H. simpl in H. unfold mret, M_ret in H.
        destruct (truth_value p) eqn:Htv; [done|]. split.
        + right. by exists r, p.
        + destruct (_get_pipeline (with_language l s)) as [[e'|r'] s''];
            by simplify_eq.
      - split; [by left|]. simpl in H.
        destruct (_get_pipeline (with_language l s)) as [[e'|r'] s''];
          by simplify_eq. }
    rewrite (_get_pipeline_eq _ l) in Hg; [|done].
    destruct (pipelines !! iso_639_3_code l) as [cls|]; [done|].
    injection Hg as <- <-. done.
  - left. rewrite __init___unknown in H; [|done]. by injection H as <- <-.
Qed.

(** X3.  Whatever its arguments and whether it returns or raises, the
    constructor makes no Doc object and changes none, and every Pipeline
    object that was alive is alive after it with the same content. *)
Theorem constructor_keeps_the_objects s language_ custom_pipeline :
  docs (__init__ language_ custom_pipeline s).2 = docs s ∧
  ∀ r p, pipes s !! r = Some p →
         pipes (__init__ language_ custom_pipeline s).2 !! r = Some p.
Proof.
  destruct (LANGUAGES !! language_) as [l|] eqn:Hl;
    [|by rewrite __init___unknown].
  rewrite (__init___known _ _ _ l Hl).
  assert (∀ s0 : state Inst,
    let g := _get_pipeline (with_language l s0) in
    docs (match g with
          | (inl e, s'') => (inl e, s'')
          | (inr r, s'') =>
              (inr (), set_self (λ o, {| language := language o;
                                         pipeline := Some r |}) s'')
          end).2 = docs s0 ∧
    ∀ r p, pipes s0 !! r = Some p →
      pipes (match g with
             | (inl e, s'') => (inl e, s'')
             | (inr r, s'') =>
                 (inr (), set_self (λ o, {| language := language o;
                                            pipeline := Some r |}) s'')
             end).2 !! r = Some p) as Hdefault.
  { intros s0 g. subst g. rewrite (_get_pipeline_eq _ l); [|done].
    destruct (pipelines !! iso_639_3_code l) as [cls|]; [|done]. simpl.
    split; [done|]. intros r p Hr. rewrite lookup_insert_ne; [done|].
    intros <-. assert (pipes s0 !! new_loc (pipes s0) = None) as Hnew
      by apply not_elem_of_dom, is_fresh.
    by rewrite Hnew in Hr. }
  destruct custom_pipeline as [r0|]; [|apply Hdefault].
  unfold truthy, mbind, M_bind, gets. simpl.
  destruct (pipes s !! r0) as [p0|]; [|done]. simpl. unfold mret, M_ret.
  destruct (truth_value p0); [done|apply Hdefault].
Qed.

(** X4.  [_get_pipeline], called on an orchestrator whose language has an
    entry in [pipelines], returns a Pipeline object that was not alive
    before, an instance of the class of the entry; it assigns no
    attribute, touches no Doc object and no Pipeline object that was
    alive, and called again it returns yet another object. *)
Theorem _get_pipeline_makes_a_new_object s l cls :
  language (self s) = Some l →
  pipelines !! iso_639_3_code l = Some cls →
  ∃ r s', _get_pipeline s = (inr r, s') ∧
          pipes s !! r = None ∧ pipes s' !! r = Some cls ∧
          self s' = self s ∧ docs s' = docs s ∧
          (∀ k p, pipes s !! k = Some p → pipes s' !! k = Some p) ∧
          ∃ r2 s2, _get_pipeline s' = (inr r2, s2) ∧ r2 ≠ r ∧
                   pipes s2 !! r = Some cls.
Proof.
  intros Hl Hcls. rewrite (_get_pipeline_eq s l Hl), Hcls.
  assert (pipes s !! new_loc (pipes s) = None) as Hnew
    by apply not_elem_of_dom, is_fresh.
  eexists _, _. split; [done|]. simpl.
  split_and!; [done|apply lookup_insert_eq|done|done| |].
  - intros k p Hk. rewrite lookup_insert_ne; [done|]. intros <-.
    by rewrite Hnew in Hk.
  - rewrite (_get_pipeline_eq _ l); [|done]. rewrite Hcls.
    eexists _, _. split; [done|]. simpl.
    assert (new_loc (<[new_loc (pipes s):=cls]> (pipes s))
            ≠ new_loc (pipes s)) as Hne.
    { intros Heq.
      apply (is_fresh (dom (<[new_loc (pipes s):=cls]> (pipes s)))).
      fold (new_loc (<[new_loc (pipes s):=cls]> (pipes s))). rewrite Heq.
      apply elem_of_dom. rewrite lookup_insert_eq. by eexists. }
    split; [done|]. rewrite lookup_insert_ne; [|done].
    apply lookup_insert_eq.
Qed.

(** X5.  Two orchestrators built without a custom pipeline, one after the
    other, never share their Pipeline object, not even for one language:
    the second gets a new object, and the object of the first is alive
    and unchanged after the second construction. *)
Theorem default_pipelines_are_not_shared s language1 language2 o s1 s2 :
  __init__ language1 None s = (inr (), s1) →
  __init__ language2 None (set_self (λ _, o) s1) = (inr (), s2) →
  ∃ r1 r2 p1, pipeline (self s1) = Some r1 ∧ pipeline (self s2) = Some r2 ∧
              r1 ≠ r2 ∧ pipes s1 !! r1 = Some p1 ∧ pipes s2 !! r1 = Some p1.
Proof.
  intros H1 H2.
  destruct (LANGUAGES !! language1) as [l1|] eqn:Hl1;
    [|by rewrite __init___unknown in H1].
  destruct (LANGUAGES !! language2) as [l2|] eqn:Hl2;
    [|by rewrite __init___unknown in H2].
  rewrite (__init___known _ _ _ l1 Hl1) in H1. simpl in H1.
  rewrite (_get_pipeline_eq _ l1) in H1; [|done].
  destruct (pipelines !! iso_639_3_code l1) as [cls1|]; [|done].
  injection H1 as <-.
  rewrite (__init___known _ _ _ l2 Hl2) in H2. simpl in H2.
  rewrite (_get_pipeline_eq _ l2) in H2; [|done].
  destruct (pipelines !! iso_639_3_code l2) as [cls2|]; [|done].
  injection H2 as <-. simpl.
  assert (new_loc (pipes s)
          ≠ new_loc (<[new_loc (pipes s):=cls1]> (pipes s))) as Hne.
  { intros Heq.
    apply (is_fresh (dom (<[new_loc (pipes s):=cls1]> (pipes s)))).
    fold (new_loc (<[new_loc (pipes s):=cls1]> (pipes s))). rewrite <- Heq.
    apply elem_of_dom. rewrite lookup_insert_eq. by eexists. }
  eexists _, _, cls1. split_and!; [done|done|done|apply lookup_insert_eq|].
  rewrite lookup_insert_ne; [|done]. apply lookup_insert_eq.
Qed.

(** * More on [analyze] *)

(** The loop reads the language of the orchestrator and the Doc objects,
    and nothing else of the state. *)
Lemma for_loop_set_docs ps l d s1 s2 :
  language (self s1) = Some l → language (self s2) = Some l →
  docs s1 = docs s2 →
  for_loop ps d s2 =
    ((for_loop ps d s1).1, set_docs (docs (for_loop ps d s1).2) s2).
Proof.
  revert d s1 s2. induction ps as [|p ps IH]; intros d s1 s2 Hl1 Hl2 Hd.
  - simpl. unfold mret, M_ret. simpl. by rewrite Hd, set_docs_id.
  - rewrite !for_loop_cons, (loop_body_step s1 l), (loop_body_step s2 l);
      [|done..].
    rewrite <- Hd.
    destruct (step (iso_639_3_code l) p (d, docs s1)) as [[e|d1] σ1]; [done|].
    simpl. by rewrite (IH d1 (set_docs σ1 s1) (set_docs σ1 s2)).
Qed.

(** X6.  [analyze] never looks at the description or at the target
    Language of the Pipeline object: two orchestrators of one language
    whose pipelines list the same Processes, on the same Doc objects,
    give the same result and leave the same Doc objects. *)
Theorem analyze_reads_only_the_processes s1 s2 l r1 r2 p1 p2 text :
  constructed s1 l r1 p1 → constructed s2 l r2 p2 →
  processes p1 = processes p2 → docs s1 = docs s2 →
  (analyze text s1).1 = (analyze text s2).1 ∧
  docs (analyze text s1).2 = docs (analyze text s2).2.
Proof.
  intros Hc1 Hc2 Hps Hd.
  rewrite (analyze_for_loop s1 l r1 p1 text Hc1).
  rewrite (analyze_for_loop s2 l r2 p2 text Hc2).
  rewrite <- Hps, <- Hd.
  rewrite (for_loop_set_docs _ l _
             (set_docs (initial (iso_639_3_code l) text (docs s1)).2 s1)
             (set_docs (initial (iso_639_3_code l) text (docs s1)).2 s2));
    [done|apply Hc1|apply Hc2|done].
Qed.

(** X7.  Processes added at the end of a pipeline come after what the
    shorter pipeline does: when the shorter pipeline raises, the longer
    one raises the same exception and leaves the same Doc objects, and
    none of the added Processes runs; when it returns a Doc, the longer
    one goes on from that Doc with the added Processes. *)
Theorem analyze_of_a_longer_pipeline s1 s2 l r1 r2 p1 p2 ps text :
  constructed s1 l r1 p1 → constructed s2 l r2 p2 →
  processes p2 = processes p1 ++ ps → docs s1 = docs s2 →
  analyze text s2 =
    match analyze text s1 with
    | (inl e, s1') => (inl e, set_docs (docs s1') s2)
    | (inr d, s1') => for_loop ps d (set_docs (docs s1') s2)
    end.
Proof.
  intros Hc1 Hc2 Hps Hd.
  rewrite (analyze_for_loop s1 l r1 p1 text Hc1).
  rewrite (analyze_for_loop s2 l r2 p2 text Hc2).
  rewrite Hps, for_loop_app, <- Hd.
  rewrite (for_loop_set_docs (processes p1) l _
             (set_docs (initial (iso_639_3_code l) text (docs s1)).2 s1)
             (set_docs (initial (iso_639_3_code l) text (docs s1)).2 s2));
    [|apply Hc1|apply Hc2|done].
  by destruct (for_loop (processes p1) _ _) as [[e|d] s1'].
Qed.

Lemma for_loop_in_turn fs ps l s d doc :
  Forall2 computes fs ps → language (self s) = Some l →
  docs s !! d = Some doc →
  result_doc (for_loop ps d s) =
    match in_turn fs (iso_639_3_code l) doc with
    | inl e => inl e
    | inr doc' => inr (Some doc')
    end.
Proof.
  intros Hfs. revert s d doc.
  induction Hfs as [|f p fs ps Hf _ IH]; intros s d doc Hl Hd.
  - unfold result_doc. simpl. by rewrite Hd.
  - rewrite for_loop_cons, (loop_body_step _ l); [|done]. simpl.
    destruct (Hf (iso_639_3_code l) d (docs s) doc Hd) as (σ1 & _ & Hs).
    destruct (f (iso_639_3_code l) doc) as [e|doc'].
    + by rewrite Hs.
    + destruct Hs as (d1 & -> & _ & Hd1). simpl. by apply IH.
Qed.

(** X8.  When each Process of the pipeline computes a function of the
    language code and the content of its input Doc, what [analyze] shows
    the caller is these functions applied in turn, in the order of the
    pipeline, to the Doc that holds the code and the raw text: the
    exception of the first that raises, or the content the last gives. *)
Theorem analyze_applies_in_turn s l r p fs text :
  constructed s l r p → Forall2 computes fs (processes p) →
  result_doc (analyze text s) =
    match in_turn fs (iso_639_3_code l)
            {| doc_language := Some (iso_639_3_code l); raw := Some text;
               sentences := None; words := None |} with
    | inl e => inl e
    | inr doc => inr (Some doc)
    end.
Proof.
  intros Hc Hfs. rewrite (analyze_for_loop s l r p text Hc).
  apply (for_loop_in_turn fs); [done|apply Hc|apply initial_lookup].
Qed.

(** X9.  On an orchestrator the constructor has returned, whatever the
    arguments it was given, what [analyze] raises was raised by a
    Process of the orchestrator's pipeline, handed the code of the
    registry's Language; [analyze] raises nothing of its own. *)
Theorem analyze_after_construction s language_ custom_pipeline s1 text e s2 :
  __init__ language_ custom_pipeline s = (inr (), s1) →
  analyze text s1 = (inl e, s2) →
  ∃ l r p process c σ,
    LANGUAGES !! language_ = Some l ∧ pipeline (self s1) = Some r ∧
    pipes s1 !! r = Some p ∧ process ∈ processes p ∧
    step (iso_639_3_code l) process c = (inl e, σ).
Proof.
  intros Hi. apply __init___constructed in Hi.
  destruct Hi as (l & r & p & Hl & Hc & _).
  rewrite (analyze_for_loop s1 l r p text Hc).
  intros Ha. apply (for_loop_raises_inv _ l) in Ha; [|apply Hc].
  destruct Ha as (ps1 & q & ps2 & cfgs & c & Hps & _ & _ & _ & Hq & _).
  exists l, r, p, q, c, (docs s2). destruct Hc as (_ & Hr & Hp).
  split_and!; try done. rewrite Hps. set_solver.
Qed.

End Properties.

(** * The instance, run *)

Section Instance.

Import Example.

Local Open Scope positive_scope.

Lemma orchestrator_constructed l p σ : constructed (orchestrator l p σ) l 1 p.
Proof. done. Qed.

Lemma Tokenize_stateless : stateless Tokenize.
Proof.
  exists (λ _ doc, inr (tokenized doc)). intros code d σ doc Hd.
  exists (<[d := tokenized doc]> σ). split.
  - intros k _ Hk. by apply lookup_insert_ne.
  - exists d. unfold step, mbind, M_bind. simpl. rewrite Hd.
    split_and!; [done|by left|apply lookup_insert_eq].
Qed.

(** [Cached] is not stateless: from the same input content it gives out
    whatever the Doc at address 1 holds. *)
Lemma Cached_not_stateless : ¬ stateless Cached.
Proof.
  intros [f Hf].
  pose (σ1 := ({[ 1 := Doc_new "lat" "a"; 2 := Doc_new "lat" "c" ]} : docstore)).
  pose (σ2 := ({[ 1 := Doc_new "lat" "b"; 2 := Doc_new "lat" "c" ]} : docstore)).
  destruct (Hf "lat" 2 σ1 (Doc_new "lat" "c") eq_refl) as (σ1' & _ & H1).
  destruct (Hf "lat" 2 σ2 (Doc_new "lat" "c") eq_refl) as (σ2' & _ & H2).
  destruct (f "lat" (Doc_new "lat" "c")) as [e|doc']; [done|].
  destruct H1 as (d1 & [= <- <-] & _ & H1), H2 as (d2 & [= <- <-] & _ & H2).
  vm_compute in H1, H2. congruence.
Qed.

(** The default Latin pipeline on a short text: one word. *)
Example analyze_lat :
  result_doc (analyze "arma" (orchestrator lat (default lat) ∅)) =
    inr (Some (tokenized (Doc_new "lat" "arma"))).
Proof. by vm_compute. Qed.

(** [NLP(language="lat")] gets a new object of the default class. *)
Example construct_lat :
  __init__ always_true "lat" None (blank ∅) =
    (inr (), orchestrator lat (default lat) ∅).
Proof. by vm_compute. Qed.

(** [NLP(language="lat", custom_pipeline=a_pipeline).pipeline is a_pipeline],
    as in the docstring of [__init__]. *)
Example construct_lat_custom :
  self (__init__ always_true "lat" (Some 7) (blank {[ 7 := default lat ]})).2
  = {| language := Some lat; pipeline := Some 7 |}.
Proof. by vm_compute. Qed.

End Instance.

(** C1, on a pipeline of two Processes: [Tokenize] fills the words of the
    first Doc in place, and [Lemmatize], which raises on a Doc without
    words, gets that Doc and gives out a new one, which [analyze]
    returns. *)
Lemma analyze_threads_the_document_witness :
  let s := Example.orchestrator Example.lat Example.two_step_pipeline ∅ in
  let doc0 := {| doc_language := Some "lat"; raw := Some "arma";
                 sentences := None; words := None |} in
  let c0 : loc * docstore := (1%positive, {[ 1%positive := doc0 ]}) in
  let c1 : loc * docstore :=
    (1%positive, {[ 1%positive := Example.tokenized doc0 ]}) in
  let c2 : loc * docstore :=
    (2%positive,
     {[ 1%positive := Example.tokenized doc0;
        2%positive := Example.lemmatized (Example.tokenized doc0) ]}) in
  constructed s Example.lat 1%positive Example.two_step_pipeline ∧
  threaded "lat" [Example.Tokenize; Example.Lemmatize] [c0; c1; c2] ∧
  analyze "arma" s = (inr 2%positive, set_docs c2.2 s).
Proof.
  intros s doc0 c0 c1 c2.
  assert (threaded "lat" [Example.Tokenize; Example.Lemmatize] [c0; c1; c2])
    as Hth.
  { split; [reflexivity|]. intros [|[|i]] q Hq; [| |done].
    - injection Hq as <-. exists c0, c1. split_and!; [done..|by vm_compute].
    - injection Hq as <-. exists c1, c2. split_and!; [done..|by vm_compute]. }
  split_and!; [apply orchestrator_constructed|done|].
  apply (analyze_threads_the_document s Example.lat 1%positive
           Example.two_step_pipeline "arma" 2%positive (set_docs c2.2 s)
           (orchestrator_constructed _ _ _)).
  exists [c0; c1; c2]. split_and!; [done|by vm_compute|done..].
Defined.

(** C4, on a pipeline whose second Process raises: the exception comes
    out as it is, and the third Process has not run. *)
Lemma analyze_propagates_the_error_witness :
  let s := Example.orchestrator Example.lat Example.broken_pipeline ∅ in
  constructed s Example.lat 1%positive Example.broken_pipeline ∧
  analyze "arma" s =
    (inl (OtherError "FileNotFoundError" "model"),
     set_docs {[ 1%positive := Example.tokenized (Doc_new "lat" "arma") ]} s).
Proof.
  intros s. split; [apply orchestrator_constructed|].
  apply (analyze_propagates_the_error s Example.lat 1%positive
           Example.broken_pipeline);
    [apply orchestrator_constructed|].
  exists [Example.Tokenize], Example.Broken, [Example.Tokenize],
    [initial "lat" "arma" ∅;
     (1%positive,
      {[ 1%positive := Example.tokenized (Doc_new "lat" "arma") ]})],
    (1%positive,
     {[ 1%positive := Example.tokenized (Doc_new "lat" "arma") ]}).
  split_and!; try reflexivity.
  split; [reflexivity|]. intros [|i] q Hq; [|done]. injection Hq as <-.
  eexists _, _. split_and!; [reflexivity..|]. by vm_compute.
Defined.

(** C10, on a pipeline with no Process. *)
Lemma analyze_empty_pipeline_witness :
  let s := Example.orchestrator Example.axm Example.empty_pipeline ∅ in
  constructed s Example.axm 1%positive Example.empty_pipeline ∧
  processes Example.empty_pipeline = [] ∧
  ∃ d s', analyze "arma" s = (inr d, s') ∧
          docs s' !! d = Some {| doc_language := Some "axm";
                                 raw := Some "arma";
                                 sentences := None; words := None |}.
Proof.
  intros s. split_and!; [apply orchestrator_constructed|reflexivity|].
  destruct (analyze_empty_pipeline s Example.axm 1%positive
              Example.empty_pipeline "arma"
              (orchestrator_constructed _ _ _) eq_refl)
    as (d & s' & Ha & _ & Hd & _).
  by exists d, s'.
Defined.

(** C7, amended, on the default Latin pipeline, whose one Process is
    stateless. *)
Lemma stateless_calls_are_independent_witness :
  let s := Example.orchestrator Example.lat (Example.default Example.lat) ∅ in
  constructed s Example.lat 1%positive (Example.default Example.lat) ∧
  Forall stateless (processes (Example.default Example.lat)) ∧
  no_leak "arma" "cano" s.
Proof.
  intros s.
  assert (Forall stateless (processes (Example.default Example.lat))) as Hps.
  { repeat constructor. apply Tokenize_stateless. }
  split_and!; [apply orchestrator_constructed|done|].
  apply (stateless_calls_are_independent s Example.lat 1%positive
           (Example.default Example.lat) (orchestrator_constructed _ _ _) Hps).
Defined.

(** C7 as stated fails on a pipeline whose Process keeps a Doc in its
    class: the first call returns the Doc at address 1, the caller
    overwrites it, and the second call returns that same object and so
    shows the caller what was scribbled. *)
Lemma cached_process_leaks :
  let s := Example.orchestrator Example.lat Example.cached_pipeline
             {[ 1%positive := Doc_new "lat" "kept by the class" ]} in
  constructed s Example.lat 1%positive Example.cached_pipeline ∧
  ¬ no_leak "arma" "cano" s.
Proof.
  intros s. split; [apply orchestrator_constructed|]. intros H.
  assert (analyze "arma" s = (inr 1%positive, (analyze "arma" s).2)) as Ha
    by (by vm_compute).
  destruct (H _ _ Ha Example.scribbled) as [Hres _].
  vm_compute in Hres. discriminate.
Qed.

(** C2, on the code of the docstring of [__init__]. *)
Lemma unknown_language_raises_witness :
  Example.LANGUAGES !! "xxx" = None ∧
  Example.__init__ Example.always_true "xxx" None (Example.blank ∅) =
    (inl (UnknownLanguageError
            "Unknown language 'xxx'. Use ISO 639-3 languages."),
     Example.blank ∅).
Proof.
  split; [reflexivity|].
  apply (unknown_language_raises Example.LANGUAGES). reflexivity.
Defined.

(** C3, on the code of the docstring of [_get_pipeline]. *)
Lemma unimplemented_language_raises_witness :
  Example.LANGUAGES !! "axm" = Some Example.axm ∧
  iso_639_3_code Example.axm = "axm" ∧
  pipelines (Example.default Example.lat) (Example.default Example.grc)
    (Example.default Example.chu) (Example.default Example.fro)
    (Example.default Example.got) !! "axm" = None ∧
  Example.__init__ Example.always_true "axm" None (Example.blank ∅) =
    (inl (UnimplementedLanguageError "axm"),
     {| self := {| language := Some Example.axm; pipeline := None |};
        docs := ∅; pipes := ∅ |}).
Proof.
  split_and!; [reflexivity..|].
  apply (unimplemented_language_raises Example.LANGUAGES); reflexivity.
Defined.

(** C5, amended, on a language with no default pipeline. *)
Lemma truthy_custom_pipeline_kept_witness :
  let s := Example.blank {[ 1%positive := Example.empty_pipeline ]} in
  Example.LANGUAGES !! "axm" = Some Example.axm ∧
  pipes s !! 1%positive = Some Example.empty_pipeline ∧
  Example.always_true Example.empty_pipeline = true ∧
  custom_pipeline_kept Example.LANGUAGES (Example.default Example.lat)
    (Example.default Example.grc) (Example.default Example.chu)
    (Example.default Example.fro) (Example.default Example.got)
    Example.always_true "axm" 1%positive s.
Proof.
  intros s. split_and!; [reflexivity..|].
  apply (truthy_custom_pipeline_kept _ _ _ _ _ _ _ s "axm" Example.axm
           1%positive Example.empty_pipeline); reflexivity.
Defined.

(** C5 as stated fails on a custom Pipeline object that is false for
    Python: one of a subclass whose [__len__] counts the Processes, with
    none.  For a language with no default pipeline the constructor then
    raises [UnimplementedLanguageError] instead of keeping the object. *)
Lemma falsy_custom_pipeline_not_kept :
  let s := Example.blank {[ 1%positive := Example.empty_pipeline ]} in
  Example.LANGUAGES !! "axm" = Some Example.axm ∧
  pipes s !! 1%positive = Some Example.empty_pipeline ∧
  Example.__init__ Example.by_len "axm" (Some 1%positive) s =
    (inl (UnimplementedLanguageError "axm"),
     {| self := {| language := Some Example.axm; pipeline := None |};
        docs := ∅; pipes := {[ 1%positive := Example.empty_pipeline ]} |}) ∧
  ¬ custom_pipeline_kept Example.LANGUAGES (Example.default Example.lat)
      (Example.default Example.grc) (Example.default Example.chu)
      (Example.default Example.fro) (Example.default Example.got)
      Example.by_len "axm" 1%positive s.
Proof.
  intros s. split_and!; [reflexivity|reflexivity|by vm_compute|].
  intros (s' & H & _). vm_compute in H. discriminate.
Qed.

(** C8, on the same object: the constructor does what it does with
    [None], which for this language is to raise. *)
Lemma falsy_custom_pipeline_ignored_witness :
  let s := Example.blank {[ 1%positive := Example.empty_pipeline ]} in
  falsy Example.by_len s (Some 1%positive) ∧
  Example.__init__ Example.by_len "axm" (Some 1%positive) s =
    Example.__init__ Example.by_len "axm" None s ∧
  Example.__init__ Example.by_len "axm" (Some 1%positive) s =
    (inl (UnimplementedLanguageError "axm"),
     {| self := {| language := Some Example.axm; pipeline := None |};
        docs := ∅; pipes := {[ 1%positive := Example.empty_pipeline ]} |}).
Proof.
  intros s.
  assert (falsy Example.by_len s (Some 1%positive)) as Hf.
  { right. by exists 1%positive, Example.empty_pipeline. }
  destruct (falsy_custom_pipeline_ignored Example.LANGUAGES
              (Example.default Example.lat) (Example.default Example.grc)
              (Example.default Example.chu) (Example.default Example.fro)
              (Example.default Example.got) Example.by_len s "axm"
              (Some 1%positive) Hf) as [Hsame Hl].
  split_and!; [done|done|]. apply (Hl Example.axm eq_refl).
Defined.

(** * The instance, run further *)

Lemma Tokenize_computes :
  computes (λ _ doc, inr (Example.tokenized doc)) Example.Tokenize.
Proof.
  intros code d σ doc Hd.
  exists (<[d := Example.tokenized doc]> σ). split.
  - intros k _ Hk. by apply lookup_insert_ne.
  - exists d. unfold step, mbind, M_bind. simpl. rewrite Hd.
    split_and!; [done|by left|apply lookup_insert_eq].
Qed.

(** X2, on a language of the registry with no default pipeline. *)
Lemma constructor_raises_only_witness :
  let s := Example.blank ∅ in
  let s' := {| self := {| language := Some Example.axm; pipeline := None |};
               docs := ∅; pipes := ∅ |} in
  (∀ r, None = Some r → is_Some (pipes s !! r)) ∧
  Example.__init__ Example.always_true "axm" None s =
    (inl (UnimplementedLanguageError "axm"), s') ∧
  ((Example.LANGUAGES !! "axm" = None ∧
    UnimplementedLanguageError "axm" =
      UnknownLanguageError (unknown_language_msg "axm") ∧ s' = s) ∨
   (∃ l, Example.LANGUAGES !! "axm" = Some l ∧
         pipelines (Example.default Example.lat) (Example.default Example.grc)
           (Example.default Example.chu) (Example.default Example.fro)
           (Example.default Example.got) !! iso_639_3_code l = None ∧
         falsy Example.always_true s None ∧
         UnimplementedLanguageError "axm" =
           UnimplementedLanguageError (iso_639_3_code l) ∧
         s' = set_self (λ o, {| language := Some l;
                                pipeline := pipeline o |}) s)).
Proof.
  intros s s'.
  assert (∀ r, None = Some r → is_Some (pipes s !! r)) as Hlive by done.
  assert (Example.__init__ Example.always_true "axm" None s =
            (inl (UnimplementedLanguageError "axm"), s')) as Hi
    by (by vm_compute).
  split_and!; [done|done|].
  apply (constructor_raises_only Example.LANGUAGES
           (Example.default Example.lat) (Example.default Example.grc)
           (Example.default Example.chu) (Example.default Example.fro)
           (Example.default Example.got) Example.always_true
           s "axm" None _ s' Hlive Hi).
Defined.

(** X4, on the Latin orchestrator: the object returned is not the one the
    orchestrator holds, which stays its pipeline. *)
Lemma _get_pipeline_makes_a_new_object_witness :
  let s := Example.orchestrator Example.lat (Example.default Example.lat) ∅ in
  language (self s) = Some Example.lat ∧
  pipelines (Example.default Example.lat) (Example.default Example.grc)
    (Example.default Example.chu) (Example.default Example.fro)
    (Example.default Example.got) !! "lat"
  = Some (Example.default Example.lat) ∧
  ∃ r s', _get_pipeline (Example.default Example.lat)
            (Example.default Example.grc) (Example.default Example.chu)
            (Example.default Example.fro) (Example.default Example.got) s
          = (inr r, s') ∧
          pipes s !! r = None ∧ self s' = self s.
Proof.
  intros s. split_and!; [reflexivity..|].
  destruct (_get_pipeline_makes_a_new_object
              (Example.default Example.lat) (Example.default Example.grc)
              (Example.default Example.chu) (Example.default Example.fro)
              (Example.default Example.got) s Example.lat
              (Example.default Example.lat) eq_refl eq_refl)
    as (r & s' & Hg & Hnew & _ & Hself & _).
  by exists r, s'.
Defined.

(** X5, on two Latin orchestrators. *)
Lemma default_pipelines_are_not_shared_witness :
  let s1 := Example.orchestrator Example.lat (Example.default Example.lat) ∅ in
  let o := {| language := None; pipeline := None |} in
  let s2 := (Example.__init__ Example.always_true "lat" None
               (set_self (λ _, o) s1)).2 in
  Example.__init__ Example.always_true "lat" None (Example.blank ∅)
  = (inr (), s1) ∧
  Example.__init__ Example.always_true "lat" None (set_self (λ _, o) s1)
  = (inr (), s2) ∧
  ∃ r1 r2 p1, pipeline (self s1) = Some r1 ∧ pipeline (self s2) = Some r2 ∧
              r1 ≠ r2 ∧ pipes s1 !! r1 = Some p1 ∧ pipes s2 !! r1 = Some p1.
Proof.
  intros s1 o s2.
  assert (Example.__init__ Example.always_true "lat" None (Example.blank ∅)
          = (inr (), s1)) as H1 by (by vm_compute).
  assert (Example.__init__ Example.always_true "lat" None
            (set_self (λ _, o) s1) = (inr (), s2)) as H2 by (by vm_compute).
  split_and!; [done|done|].
  apply (default_pipelines_are_not_shared Example.LANGUAGES
           (Example.default Example.lat) (Example.default Example.grc)
           (Example.default Example.chu) (Example.default Example.fro)
           (Example.default Example.got) Example.always_true
           (Example.blank ∅) "lat" "lat" o s1 s2 H1 H2).
Defined.

(** X6, on a Latin orchestrator given the pipeline made for Greek. *)
Lemma analyze_reads_only_the_processes_witness :
  let s1 := Example.orchestrator Example.lat (Example.default Example.lat) ∅ in
  let s2 := Example.orchestrator Example.lat (Example.default Example.grc) ∅ in
  constructed s1 Example.lat 1%positive (Example.default Example.lat) ∧
  constructed s2 Example.lat 1%positive (Example.default Example.grc) ∧
  processes (Example.default Example.lat)
  = processes (Example.default Example.grc) ∧
  docs s1 = docs s2 ∧
  (analyze "arma" s1).1 = (analyze "arma" s2).1 ∧
  docs (analyze "arma" s1).2 = docs (analyze "arma" s2).2.
Proof.
  intros s1 s2.
  split_and!; [apply orchestrator_constructed..|reflexivity|reflexivity| |];
    apply (analyze_reads_only_the_processes s1 s2 Example.lat 1%positive
             1%positive (Example.default Example.lat)
             (Example.default Example.grc) "arma"
             (orchestrator_constructed _ _ _)
             (orchestrator_constructed _ _ _) eq_refl eq_refl).
Defined.

(** X7, on the default Latin pipeline and the one that goes on with
    [Broken]. *)
Lemma analyze_of_a_longer_pipeline_witness :
  let s1 := Example.orchestrator Example.lat (Example.default Example.lat) ∅ in
  let s2 := Example.orchestrator Example.lat Example.broken_pipeline ∅ in
  constructed s1 Example.lat 1%positive (Example.default Example.lat) ∧
  constructed s2 Example.lat 1%positive Example.broken_pipeline ∧
  processes Example.broken_pipeline
  = processes (Example.default Example.lat)
    ++ [Example.Broken; Example.Tokenize] ∧
  docs s1 = docs s2 ∧
  analyze "arma" s2 =
    match analyze "arma" s1 with
    | (inl e, s1') => (inl e, set_docs (docs s1') s2)
    | (inr d, s1') =>
        for_loop [Example.Broken; Example.Tokenize] d (set_docs (docs s1') s2)
    end.
Proof.
  intros s1 s2.
  split_and!; [apply orchestrator_constructed..|reflexivity|reflexivity|].
  apply (analyze_of_a_longer_pipeline s1 s2 Example.lat 1%positive 1%positive
           (Example.default Example.lat) Example.broken_pipeline
           [Example.Broken; Example.Tokenize] "arma"
           (orchestrator_constructed _ _ _)
           (orchestrator_constructed _ _ _) eq_refl eq_refl).
Defined.

Lemma Lemmatize_computes :
  computes (λ _ doc, match words doc with
                     | Some _ => inr (Example.lemmatized doc)
                     | None => inl (OtherError "ValueError" "no words")
                     end) Example.Lemmatize.
Proof.
  intros code d σ doc Hd. destruct (words doc) as [ws|] eqn:Hw.
  - exists (<[new_loc σ := Example.lemmatized doc]> σ). split.
    + intros k Hk _. apply lookup_insert_ne. intros <-.
      by apply (is_fresh (dom σ)).
    + exists (new_loc σ). unfold step, mbind, M_bind. simpl.
      rewrite Hd, Hw.
      split_and!; [done|right; apply is_fresh|apply lookup_insert_eq].
  - exists σ. split; [done|]. unfold step, mbind, M_bind. simpl.
    by rewrite Hd, Hw.
Qed.

(** X8, on the pipeline of two Processes. *)
Lemma analyze_applies_in_turn_witness :
  let s := Example.orchestrator Example.lat Example.two_step_pipeline ∅ in
  let fs : list (string → Doc → exn + Doc) :=
    [λ _ doc, inr (Example.tokenized doc);
     λ _ doc, match words doc with
              | Some _ => inr (Example.lemmatized doc)
              | None => inl (OtherError "ValueError" "no words")
              end] in
  constructed s Example.lat 1%positive Example.two_step_pipeline ∧
  Forall2 computes fs (processes Example.two_step_pipeline) ∧
  result_doc (analyze "arma" s)
  = inr (Some (Example.lemmatized (Example.tokenized
                 {| doc_language := Some "lat"; raw := Some "arma";
                    sentences := None; words := None |}))).
Proof.
  intros s fs.
  assert (Forall2 computes fs (processes Example.two_step_pipeline)) as Hfs.
  { repeat constructor; [apply Tokenize_computes|apply Lemmatize_computes]. }
  split_and!; [apply orchestrator_constructed|done|].
  apply (analyze_applies_in_turn s Example.lat 1%positive
           Example.two_step_pipeline fs "arma"
           (orchestrator_constructed _ _ _) Hfs).
Defined.

(** X9, on a Latin orchestrator built with the pipeline that breaks. *)
Lemma analyze_after_construction_witness :
  let s := Example.blank {[ 1%positive := Example.broken_pipeline ]} in
  let s1 := (Example.__init__ Example.always_true "lat" (Some 1%positive) s).2 in
  let s2 := (analyze "arma" s1).2 in
  Example.__init__ Example.always_true "lat" (Some 1%positive) s
  = (inr (), s1) ∧
  analyze "arma" s1 = (inl (OtherError "FileNotFoundError" "model"), s2) ∧
  ∃ l r p process c σ,
    Example.LANGUAGES !! "lat" = Some l ∧ pipeline (self s1) = Some r ∧
    pipes s1 !! r = Some p ∧ process ∈ processes p ∧
    step (iso_639_3_code l) process c
    = (inl (OtherError "FileNotFoundError" "model"), σ).
Proof.
  intros s s1 s2.
  assert (Example.__init__ Example.always_true "lat" (Some 1%positive) s
          = (inr (), s1)) as H1 by (by vm_compute).
  assert (analyze "arma" s1
          = (inl (OtherError "FileNotFoundError" "model"), s2)) as H2
    by (by vm_compute).
  split_and!; [done|done|].
  apply (analyze_after_construction Example.LANGUAGES
           (Example.default Example.lat) (Example.default Example.grc)
           (Example.default Example.chu) (Example.default Example.fro)
           (Example.default Example.got) Example.always_true
           s "lat" (Some 1%positive) s1 "arma" _ s2 H1 H2).
Defined.
